(** * North Indian chart layout: a model of
      [src/frontend/app/components/NorthIndianChart.tsx]

    The component is a function of its two props, [data] (the chart payload,
    typed [any], in practice the parsed JSON reply of the calculation
    service) and [ascendantSign] (a string).  It is embedded here as a
    function into an error monad whose only failure is the [TypeError] that
    JavaScript raises on a property read of [null]/[undefined] or a call of
    something that is not a function.  The fixed background geometry (the
    [rect] and the six [line] elements) carries no data and is left out.

    The file also models the helpers of [components/ui/api.ts] and the state
    and handlers of the page [app/page.tsx] that hosts the chart, by explicit
    state passing: a handler maps the state of the render it was created in
    to the state it leaves, the request it issues and the rest of its body,
    which runs when the response arrives.  The markup of the page, the
    debounce timer of the city search and the formatting of the dashboard
    cards are left out. *)

From Stdlib Require Import ZArith Floats.
From stdpp Require Import base option list gmap strings pretty.

Local Open Scope Z_scope.

(** ** The JavaScript fragment the component runs on *)

Module JS.

(** A computation either completes or throws. *)
Inductive result (A : Type) : Type :=
| Ok (a : A)
| TypeError.
Global Arguments Ok {A} a.
Global Arguments TypeError {A}.

Global Instance result_ret : MRet result := fun _ a => Ok a.
Global Instance result_bind : MBind result := fun _ _ k m =>
  match m with
  | Ok a => k a
  | TypeError => TypeError
  end.

(** Values of the payload: what [JSON.parse] can produce.  A number is an
    IEEE double; an object is a finite map from keys to values; a string is
    a sequence of characters, each standing for one UTF-16 code unit. *)
#[warnings="-register-all"] Inductive json : Type :=
| JNull
| JBool (b : bool)
| JNum (f : float)
| JStr (s : string)
| JArr (l : list json)
| JObj (m : gmap string json).

(** [ToBoolean] on a payload value. *)
Definition truthy (v : json) : bool :=
  match v with
  | JNull => false
  | JBool b => b
  | JNum f => negb (PrimFloat.eqb f 0 || PrimFloat.is_nan f)
  | JStr s => negb (String.eqb s "")
  | JArr _ | JObj _ => true
  end.

(** [v[k]] / [v.k] for the keys the component reads ([house_N], [planets],
    [name]).  None of them is an array index or a member of a built-in
    prototype, so the read yields an own property of an object and
    [undefined] ([None]) on every other value, except that reading from
    [null] throws. *)
Definition get (v : json) (k : string) : result (option json) :=
  match v with
  | JNull => TypeError
  | JObj m => Ok (m !! k)
  | _ => Ok None
  end.

(** [s.substring(a, b)]: both indices are clamped to [0, length] and
    swapped when out of order. *)
Definition substring (s : string) (a b : Z) : string :=
  let len := Z.of_nat (String.length s) in
  let a' := Z.min (Z.max a 0) len in
  let b' := Z.min (Z.max b 0) len in
  let lo := Z.min a' b' in
  let hi := Z.max a' b' in
  String.substring (Z.to_nat lo) (Z.to_nat (hi - lo)) s.

(** The outcome of integer arithmetic: an integer (exactly representable,
    all quantities here being tiny) or [NaN]. *)
Inductive number : Type :=
| Finite (n : Z)
| NaN.

(** What a read of an object literal whose own properties are numbers can
    give: [undefined], an own number, or a member inherited from
    [Object.prototype] (a built-in function, or for [__proto__] the
    prototype object itself). *)
Inductive value : Type :=
| VUndefined
| VNumber (n : Z)
| VObject (inherited : string).

(** The property names of [Object.prototype] (ECMA-262, with Annex B). *)
Definition Object_prototype : list string :=
  [ "constructor"; "hasOwnProperty"; "isPrototypeOf"; "propertyIsEnumerable";
    "toLocaleString"; "toString"; "valueOf"; "__proto__";
    "__defineGetter__"; "__defineSetter__";
    "__lookupGetter__"; "__lookupSetter__" ]%string.

(** [o[k]] on an object literal [o] with the own properties [own]: the own
    property if there is one, else what the prototype chain provides. *)
Definition lookup_literal (own : gmap string Z) (k : string) : value :=
  match own !! k with
  | Some n => VNumber n
  | None => if bool_decide (k ∈ Object_prototype) then VObject k else VUndefined
  end.

(** [v || d] for a numeric default [d]. *)
Definition or_default (v : value) (d : Z) : value :=
  match v with
  | VUndefined => VNumber d
  | VNumber n => if n =? 0 then VNumber d else VNumber n
  | VObject k => VObject k
  end.

End JS.
Import JS.

(** ** Module-level tables of the component *)

Record point : Type := Point { pos_x : Z; pos_y : Z }.

Global Instance point_eq_dec : EqDecision point.
Proof. solve_decision. Defined.

(** Sign name to ordinal (Aries = 1, ...). *)
Definition SIGN_MAP : gmap string Z :=
  list_to_map
    [ ("Aries", 1); ("Taurus", 2); ("Gemini", 3); ("Cancer", 4);
      ("Leo", 5); ("Virgo", 6); ("Libra", 7); ("Scorpio", 8);
      ("Sagittarius", 9); ("Capricorn", 10); ("Aquarius", 11);
      ("Pisces", 12) ]%string.

(** Centre points for the planet text of each house, H1 first. *)
Definition HOUSE_CENTERS : list point :=
  [ Point 50 20; Point 20 10; Point 10 20; Point 25 50;
    Point 10 80; Point 20 90; Point 50 80; Point 80 90;
    Point 90 80; Point 75 50; Point 90 20; Point 80 10 ].

(** The ten entries of the table [SIGN_POSITIONS], which the component
    declares and never reads. *)
Definition SIGN_POSITIONS : list (point * string) :=
  [ (Point 50 45, "middle"); (Point 45 5, "start"); (Point 5 45, "start");
    (Point 50 55, "middle"); (Point 5 55, "start"); (Point 45 95, "start");
    (Point 50 65, "middle"); (Point 55 95, "end"); (Point 95 55, "end");
    (Point 50 45, "middle") ]%string.

(** The twelve sign-number [text] elements are written out one by one in the
    markup; this is the list of their [x], [y] attributes with the house
    index each passes to [getSignNum], in document order. *)
Definition SIGN_LABELS : list (point * Z) :=
  [ (Point 50 42, 0); (Point 15 8, 1); (Point 5 18, 2); (Point 40 52, 3);
    (Point 5 85, 4); (Point 15 95, 5); (Point 50 60, 6); (Point 85 95, 7);
    (Point 95 85, 8); (Point 60 52, 9); (Point 95 18, 10); (Point 85 8, 11) ].

(** ** The component *)

(** [const ascNum = SIGN_MAP[ascendantSign] || 1] *)
Definition ascNum (ascendantSign : string) : value :=
  or_default (lookup_literal SIGN_MAP ascendantSign) 1.

(** [((ascNum + houseIdx - 1) % 12) + 1].  [%] truncates towards zero
    ([Z.rem]).  When [ascNum] is not a number, [+] concatenates its string
    form (the source text of a function, or "[object Object]") with
    [houseIdx]; [- 1] converts that text to a number, which gives [NaN], and
    [%] and [+ 1] keep [NaN].  [undefined + houseIdx] is [NaN] at once. *)
Definition getSignNum (ascNum : value) (houseIdx : Z) : number :=
  match ascNum with
  | VNumber a => Finite (Z.rem (a + houseIdx - 1) 12 + 1)
  | VObject _ => NaN
  | VUndefined => NaN
  end.

(** One [tspan] of a house: its React key, its [x] and [dy] attributes and
    its text. *)
Record tspan : Type := Tspan {
  tspan_key : string;
  tspan_x : Z;
  tspan_dy : Z;
  tspan_text : string
}.

(** [`house_${houseIndex + 1}`] *)
Definition houseKey (houseIndex : nat) : string :=
  "house_" +:+ pretty (houseIndex + 1)%nat.

(** The callback of [houseData.planets.map]: the element [p] and its index
    [i] give one [tspan]. *)
Definition planetSpan (houseIndex : nat) (p : json) (i : nat) : result tspan :=
  name ← get p "name";
  match HOUSE_CENTERS !! houseIndex with
  | None => TypeError
  | Some c =>
      match name with
      | Some (JStr s) =>
          Ok (Tspan s (pos_x c) (if (i =? 0)%nat then 0 else 12)
                    (substring s 0 2))
      | _ => TypeError
      end
  end.

(** [Array.prototype.map] with the [(element, index)] callback, from
    index [i] on. *)
Fixpoint mapFrom {A : Type} (f : json → nat → result A) (i : nat)
    (l : list json) : result (list A) :=
  match l with
  | [] => Ok []
  | p :: l' =>
      t ← f p i;
      ts ← mapFrom f (S i) l';
      Ok (t :: ts)
  end.

(** [v.map(f)]: only an array has [map]. *)
Definition array_map {A : Type} (v : json) (f : json → nat → result A)
    : result (list A) :=
  match v with
  | JArr l => mapFrom f 0 l
  | _ => TypeError
  end.

(** [renderPlanets(houseIndex)].  [None] is the [null] returned by
    [if (!houseData || !houseData.planets) return null]; [||] reads
    [houseData.planets] only when [houseData] is truthy. *)
Definition renderPlanets (data : json) (houseIndex : nat)
    : result (option (list tspan)) :=
  houseData ← get data (houseKey houseIndex);
  match houseData with
  | None => Ok None
  | Some hd =>
      if negb (truthy hd) then Ok None
      else
        planets ← get hd "planets";
        match planets with
        | None => Ok None
        | Some pl =>
            if negb (truthy pl) then Ok None
            else
              spans ← array_map pl (planetSpan houseIndex);
              Ok (Some spans)
        end
  end.

(** One [text] element of the house layer: its key, its position and the
    children [renderPlanets] gave. *)
Record house_text : Type := HouseText {
  house_index : nat;
  house_pos : point;
  house_children : option (list tspan)
}.

(** One sign-number [text] element. *)
Record sign_text : Type := SignText {
  sign_pos : point;
  sign_num : number
}.

(** What the component draws over the grid. *)
Record chart : Type := Chart {
  houses : list house_text;
  signs : list sign_text
}.

(** [HOUSE_CENTERS.map((pos, i) => <text ...>{renderPlanets(i)}</text>)],
    from index [i] on. *)
Fixpoint houseLayer (data : json) (i : nat) (centers : list point)
    : result (list house_text) :=
  match centers with
  | [] => Ok []
  | pos :: rest =>
      children ← renderPlanets data i;
      texts ← houseLayer data (S i) rest;
      Ok (HouseText i pos children :: texts)
  end.

(** [NorthIndianChart({ data, ascendantSign })] *)
Definition NorthIndianChart (data : json) (ascendantSign : string)
    : result chart :=
  let ascNum := ascNum ascendantSign in
  texts ← houseLayer data 0 HOUSE_CENTERS;
  Ok (Chart texts
        ((λ '(pos, houseIdx), SignText pos (getSignNum ascNum houseIdx))
           <$> SIGN_LABELS)).

(** ** Derived views used to state the properties *)

(** The vertical offsets of a run of [tspan]s relative to the [y] of their
    [text] element.  In SVG [dy] is relative: it moves the current text
    position from where the previous [tspan] left it (a renderer applies it
    at the first glyph of the run), so the offset of a label is [acc] plus
    the sum of the [dy] up to and including its own. *)
Fixpoint offsets (acc : Z) (spans : list tspan) : list Z :=
  match spans with
  | [] => []
  | t :: rest => (acc + tspan_dy t) :: offsets (acc + tspan_dy t) rest
  end.

(** Where each label of a house ends up: the [x] it sets, and the [y] of the
    enclosing [text] element plus its offset. *)
Definition label_positions (anchor : point) (spans : list tspan) : list point :=
  zip_with Point (tspan_x <$> spans) ((λ o, pos_y anchor + o) <$> offsets 0 spans).

(** The planet labels of a house: none for [null]. *)
Definition labels_of (children : option (list tspan)) : list tspan :=
  default [] children.

(** All planet labels of a chart, house by house. *)
Definition planet_labels (c : chart) : list tspan :=
  houses c ≫= (λ h, labels_of (house_children h)).

(** A payload value that is a planet entry with the given name. *)
Definition planet (name : string) : json := JObj {[ "name" := JStr name ]}.

(** [p] is an object whose [name] is the string [name]; it may have any
    other fields. *)
Definition planet_named (p : json) (name : string) : Prop :=
  ∃ m, p = JObj m ∧ m !! "name" = Some (JStr name).

(** The house entry [data[houseKey]] carries the planet list [ps]. *)
Definition house_has (data : json) (houseIndex : nat) (ps : list json) : Prop :=
  ∃ m e, data = JObj m ∧ m !! houseKey houseIndex = Some (JObj e)
         ∧ e !! "planets" = Some (JArr ps).

(** The labels the markup of [renderPlanets] describes for a list of names,
    written directly: the [i]-th has [dy] 0 if [i] is 0 and 12 otherwise. *)
Fixpoint spans_from (cx : Z) (i : nat) (names : list string) : list tspan :=
  match names with
  | [] => []
  | s :: rest =>
      Tspan s cx (if (i =? 0)%nat then 0 else 12) (substring s 0 2)
        :: spans_from cx (S i) rest
  end.

(** Two payloads carry the same chart input when they agree on the twelve
    house entries, whatever else they hold. *)
Definition same_chart_input (d1 d2 : json) : Prop :=
  ∀ h, (h < 12)%nat → get d1 (houseKey h) = get d2 (houseKey h).

(** The entry of house [h] is absent or [null], or is an object whose
    [planets] is absent or [null]. *)
Definition no_planet_list (m : gmap string json) (h : nat) : Prop :=
  m !! houseKey h = None
  ∨ m !! houseKey h = Some JNull
  ∨ ∃ e, m !! houseKey h = Some (JObj e)
         ∧ (e !! "planets" = None ∨ e !! "planets" = Some JNull).

(** A point of the 100 x 100 view box. *)
Definition in_view_box (p : point) : Prop :=
  0 ≤ pos_x p ≤ 100 ∧ 0 ≤ pos_y p ≤ 100.

(** ** Sample payloads *)

(** House 1 holds Sun, Mercury and Venus; the payload also has the fields
    the component never reads. *)
Definition three_planets : list json :=
  [ planet "Sun"; planet "Mercury"; planet "Venus" ].

Definition sample_map : gmap string json :=
  {[ "house_1" := JObj {[ "planets" := JArr three_planets ]};
     "house_2" := JObj {[ "planets" := JArr [] ]};
     "house_4" := JObj {[ "lord" := JStr "Moon" ]};
     "ascendant" := JObj {[ "sign" := JStr "Libra"; "degree" := JNum 12.5 ]} ]}.

Definition sample_data : json := JObj sample_map.

(** The same houses and nothing else. *)
Definition sample_houses_only : json :=
  JObj {[ "house_1" := JObj {[ "planets" := JArr three_planets ]};
          "house_2" := JObj {[ "planets" := JArr [] ]};
          "house_4" := JObj {[ "lord" := JStr "Moon" ]} ]}.

(** Seven planets in house 7, two of them with names shorter than two
    characters. *)
Definition crowded_names : list string :=
  [ "Sun"; "Moon"; "Mars"; "Mercury"; "Jupiter"; "K"; "" ].

Definition crowded_data : json :=
  JObj {[ "house_7" := JObj {[ "planets" := JArr (planet <$> crowded_names) ]} ]}.

(** Every house present with an empty planet list. *)
Definition empty_houses : json :=
  JObj (list_to_map
          ((λ h, (houseKey h, JObj {[ "planets" := JArr [] ]})) <$> seq 0 12)).

(** A value that [renderPlanets] can lay out: an array whose elements are
    objects with a string [name]. *)
Definition planet_list (pl : json) : Prop :=
  ∃ ps names, pl = JArr ps ∧ Forall2 planet_named ps names.

(** Sample payloads whose first house cannot be laid out: [planets] is a
    string, and a planet has no [name]. *)
Definition bad_planets_data : json :=
  JObj {[ "house_1" := JObj {[ "planets" := JStr "Sun" ]} ]}.

Definition bad_planet_data : json :=
  JObj {[ "house_1" :=
            JObj {[ "planets" := JArr [planet "Sun"; JObj ∅] ]} ]}.

(** ** The API helpers ([components/ui/api.ts]) *)

Definition API_BASE : string := "http://127.0.0.1:8000".

(** One entry of the chat transcript, [{ role, text }]; [text] may be
    [undefined]. *)
Record message : Type := Message { role : string; text : option json }.

(** The two objects the page hands to the helpers to be sent as JSON:
    [{ date, time, city, lat, lon }] and [{ chart_data, question, history }].
    A field that is [undefined] is [None]. *)
Inductive payload : Type :=
| CalcPayload (date time : string) (city lat lon : option json)
| ChatPayload (chart_data : json) (question : string) (history : list message).

(** What is passed to [fetch]. *)
Record request : Type := Request {
  method : string;
  url : string;
  headers : list (string * string);
  body : option payload
}.

(** What [fetch] gives back: it rejects, or resolves to a response with its
    [ok] flag; [parsed] is what [res.json()] resolves to, [None] when it
    rejects. *)
Inductive response : Type :=
| NetworkError
| Response (ok : bool) (parsed : option json).

(** A settled promise. *)
Inductive settled (A : Type) : Type :=
| Resolved (a : A)
| Rejected.
Global Arguments Resolved {A} a.
Global Arguments Rejected {A}.

(** An [async] function that calls [fetch] at most once: it settles without
    a request, or issues one and settles from the response. *)
Inductive async (A : Type) : Type :=
| Return (r : settled A)
| Await (req : request) (k : response → settled A).
Global Arguments Return {A} r.
Global Arguments Await {A} req k.

(** [return res.json()] *)
Definition res_json (parsed : option json) : settled json :=
  match parsed with
  | Some v => Resolved v
  | None => Rejected
  end.

(** [searchCity(query)] *)
Definition searchCity (query : string) : async json :=
  if (String.length query <? 3)%nat then Return (Resolved (JArr []))
  else
    Await (Request "GET" (API_BASE +:+ "/search_city?query=" +:+ query) [] None)
      (λ res,
         match res with
         | NetworkError => Rejected
         | Response ok parsed =>
             if negb ok then Resolved (JArr []) else res_json parsed
         end).

(** The [POST] of a JSON body that [calculateChart] and [chatWithAstrologer]
    share: a response that is not [ok] makes them throw. *)
Definition post_json (path : string) (data : payload) : async json :=
  Await (Request "POST" (API_BASE +:+ path)
           [("Content-Type", "application/json")] (Some data))
    (λ res,
       match res with
       | NetworkError => Rejected
       | Response ok parsed => if negb ok then Rejected else res_json parsed
       end).

(** [calculateChart(data)] *)
Definition calculateChart (data : payload) : async json :=
  post_json "/calculate_chart" data.

(** [chatWithAstrologer(payload)] *)
Definition chatWithAstrologer (data : payload) : async json :=
  post_json "/chat_with_astrologer" data.

(** The request an [async] function issues, if any, and how it settles for a
    given response. *)
Definition request_of {A : Type} (p : async A) : option request :=
  match p with
  | Return _ => None
  | Await req _ => Some req
  end.

Definition settle {A : Type} (p : async A) (res : response) : settled A :=
  match p with
  | Return r => r
  | Await _ k => k res
  end.

(** ** The page ([app/page.tsx]) *)

Inductive Step : Type := Form | Dashboard.

(** The eleven [useState] cells of [Home].  [cityInput] starts as a string
    but [selectCity] stores [city.name] in it, whatever that is;
    [cityResults], [selectedCity] and [chartData] hold what the service
    sent. *)
Record Home : Type := {
  step : Step;
  loading : bool;
  date : string;
  time : string;
  cityInput : option json;
  cityResults : json;
  selectedCity : json;
  chartData : json;
  chatHistory : list message;
  userQuestion : string;
  chatLoading : bool
}.

(** The state of the first render. *)
Definition initial : Home :=
  {| step := Form; loading := false; date := "14/12/2023"; time := "10:30";
     cityInput := Some (JStr ""); cityResults := JArr [];
     selectedCity := JNull; chartData := JNull; chatHistory := [];
     userQuestion := ""; chatLoading := false |}.

(** The state setters. *)
Definition setStep (v : Step) (s : Home) : Home :=
  {| step := v;
     loading := loading s;
     date := date s;
     time := time s;
     cityInput := cityInput s;
     cityResults := cityResults s;
     selectedCity := selectedCity s;
     chartData := chartData s;
     chatHistory := chatHistory s;
     userQuestion := userQuestion s;
     chatLoading := chatLoading s |}.

Definition setLoading (v : bool) (s : Home) : Home :=
  {| step := step s;
     loading := v;
     date := date s;
     time := time s;
     cityInput := cityInput s;
     cityResults := cityResults s;
     selectedCity := selectedCity s;
     chartData := chartData s;
     chatHistory := chatHistory s;
     userQuestion := userQuestion s;
     chatLoading := chatLoading s |}.

Definition setDate (v : string) (s : Home) : Home :=
  {| step := step s;
     loading := loading s;
     date := v;
     time := time s;
     cityInput := cityInput s;
     cityResults := cityResults s;
     selectedCity := selectedCity s;
     chartData := chartData s;
     chatHistory := chatHistory s;
     userQuestion := userQuestion s;
     chatLoading := chatLoading s |}.

Definition setTime (v : string) (s : Home) : Home :=
  {| step := step s;
     loading := loading s;
     date := date s;
     time := v;
     cityInput := cityInput s;
     cityResults := cityResults s;
     selectedCity := selectedCity s;
     chartData := chartData s;
     chatHistory := chatHistory s;
     userQuestion := userQuestion s;
     chatLoading := chatLoading s |}.

Definition setCityInput (v : option json) (s : Home) : Home :=
  {| step := step s;
     loading := loading s;
     date := date s;
     time := time s;
     cityInput := v;
     cityResults := cityResults s;
     selectedCity := selectedCity s;
     chartData := chartData s;
     chatHistory := chatHistory s;
     userQuestion := userQuestion s;
     chatLoading := chatLoading s |}.

Definition setCityResults (v : json) (s : Home) : Home :=
  {| step := step s;
     loading := loading s;
     date := date s;
     time := time s;
     cityInput := cityInput s;
     cityResults := v;
     selectedCity := selectedCity s;
     chartData := chartData s;
     chatHistory := chatHistory s;
     userQuestion := userQuestion s;
     chatLoading := chatLoading s |}.

Definition setSelectedCity (v : json) (s : Home) : Home :=
  {| step := step s;
     loading := loading s;
     date := date s;
     time := time s;
     cityInput := cityInput s;
     cityResults := cityResults s;
     selectedCity := v;
     chartData := chartData s;
     chatHistory := chatHistory s;
     userQuestion := userQuestion s;
     chatLoading := chatLoading s |}.

Definition setChartData (v : json) (s : Home) : Home :=
  {| step := step s;
     loading := loading s;
     date := date s;
     time := time s;
     cityInput := cityInput s;
     cityResults := cityResults s;
     selectedCity := selectedCity s;
     chartData := v;
     chatHistory := chatHistory s;
     userQuestion := userQuestion s;
     chatLoading := chatLoading s |}.

Definition setChatHistory (v : list message) (s : Home) : Home :=
  {| step := step s;
     loading := loading s;
     date := date s;
     time := time s;
     cityInput := cityInput s;
     cityResults := cityResults s;
     selectedCity := selectedCity s;
     chartData := chartData s;
     chatHistory := v;
     userQuestion := userQuestion s;
     chatLoading := chatLoading s |}.

Definition setUserQuestion (v : string) (s : Home) : Home :=
  {| step := step s;
     loading := loading s;
     date := date s;
     time := time s;
     cityInput := cityInput s;
     cityResults := cityResults s;
     selectedCity := selectedCity s;
     chartData := chartData s;
     chatHistory := chatHistory s;
     userQuestion := v;
     chatLoading := chatLoading s |}.

Definition setChatLoading (v : bool) (s : Home) : Home :=
  {| step := step s;
     loading := loading s;
     date := date s;
     time := time s;
     cityInput := cityInput s;
     cityResults := cityResults s;
     selectedCity := selectedCity s;
     chartData := chartData s;
     chatHistory := chatHistory s;
     userQuestion := userQuestion s;
     chatLoading := v |}.

(** What a handler does when it is called on the state [s] of the current
    render: the state its synchronous part leaves, the [alert]s it raises,
    and, when it stops at an [await], the request it has issued with the
    rest of its body.  The rest runs when the response [res] arrives; its
    [set...] calls then apply to the state [s'] of that moment, while the
    values it computes with are those captured from [s]. *)
Record reaction : Type := Reaction {
  now : Home;
  alerts : list string;
  pending : option (request * (response → Home → Home * list string))
}.

(** [await p] in a handler whose synchronous part has left the state [s1],
    followed by the [try]/[catch]/[finally] body [k]. *)
Definition await {A : Type} (p : async A) (s1 : Home)
    (k : settled A → Home → Home * list string) : reaction :=
  match p with
  | Return r => let '(s', al) := k r s1 in Reaction s' al None
  | Await req kk => Reaction s1 [] (Some (req, λ res s', k (kk res) s'))
  end.

(** The white space and line terminators of ECMAScript among the code
    units below 256: TAB, LF, VT, FF, CR, SP and NBSP. *)
Definition is_white_space (c : Ascii.ascii) : bool :=
  let n := Ascii.nat_of_ascii c in
  ((9 <=? n) && (n <=? 13) || (n =? 32) || (n =? 160))%nat.

Fixpoint trim_start (s : string) : string :=
  match s with
  | EmptyString => EmptyString
  | String c s' => if is_white_space c then trim_start s' else s
  end.

Fixpoint trim_end (s : string) : string :=
  match s with
  | EmptyString => EmptyString
  | String c s' =>
      match trim_end s' with
      | EmptyString => if is_white_space c then EmptyString
                       else String c EmptyString
      | t => String c t
      end
  end.

(** [s.trim()] *)
Definition trim (s : string) : string := trim_end (trim_start s).

(** Every character of [s] is white space. *)
Fixpoint blank (s : string) : bool :=
  match s with
  | EmptyString => true
  | String c s' => is_white_space c && blank s'
  end.

Definition select_city_alert : string := "Please select a city from the list".
Definition calculate_alert : string := "Error calculating chart. Check inputs.".
Definition chat_error : string := "Error connecting to the stars.".

(** The [onChange] handlers of the four inputs. *)
Definition changeDate (v : string) (s : Home) : Home := setDate v s.
Definition changeTime (v : string) (s : Home) : Home := setTime v s.
Definition changeCity (v : string) (s : Home) : Home :=
  setSelectedCity JNull (setCityInput (Some (JStr v)) s).
Definition changeQuestion (v : string) (s : Home) : Home := setUserQuestion v s.

(** [selectCity(city)], called with an element of [cityResults]. *)
Definition selectCity (city : json) (s : Home) : result Home :=
  name ← get city "name";
  Ok (setCityResults (JArr []) (setCityInput name (setSelectedCity city s))).

(** [handleCalculate()].  Reading [name], [lat] and [lon] happens inside the
    [try], so a [TypeError] there would be caught like a failed request. *)
Definition handleCalculate (s : Home) : reaction :=
  if negb (truthy (selectedCity s)) then Reaction s [select_city_alert] None
  else
    let s1 := setLoading true s in
    match
      city ← get (selectedCity s) "name";
      lat ← get (selectedCity s) "lat";
      lon ← get (selectedCity s) "lon";
      Ok (CalcPayload (date s) (time s) city lat lon)
    with
    | TypeError => Reaction (setLoading false s1) [calculate_alert] None
    | Ok data =>
        await (calculateChart data) s1
          (λ r s',
             match r with
             | Resolved v =>
                 (setLoading false (setStep Dashboard (setChartData v s')), [])
             | Rejected => (setLoading false s', [calculate_alert])
             end)
    end.

(** [handleChat()].  [res.response] is read inside the [try]: on a [null]
    reply the [TypeError] is caught like a failed request. *)
Definition handleChat (s : Home) : reaction :=
  if String.eqb (trim (userQuestion s)) "" then Reaction s [] None
  else
    let newMsg := Message "user" (Some (JStr (userQuestion s))) in
    let updatedHistory := chatHistory s ++ [newMsg] in
    let s1 :=
      setChatLoading true
        (setUserQuestion "" (setChatHistory updatedHistory s)) in
    let answer (t : option json) (s' : Home) : Home * list string :=
      (setChatLoading false
         (setChatHistory (updatedHistory ++ [Message "model" t]) s'), []) in
    await
      (chatWithAstrologer
         (ChatPayload (chartData s) (userQuestion s) updatedHistory))
      s1
      (λ r s',
         match r with
         | Resolved res =>
             match get res "response" with
             | Ok t => answer t s'
             | TypeError => answer (Some (JStr chat_error)) s'
             end
         | Rejected => answer (Some (JStr chat_error)) s'
         end).



(** The text a reply leaves in the transcript, through [chatWithAstrologer]
    and the [try]/[catch] of [handleChat]: the [response] field of an [ok]
    reply that parsed to something other than [null], and the fixed error
    text in every other case. *)
Definition reply_text (res : response) : option json :=
  match res with
  | Response true (Some JNull) => Some (JStr chat_error)
  | Response true (Some (JObj m)) => m !! "response"
  | Response true (Some _) => None
  | _ => Some (JStr chat_error)
  end.

(** The state changes the page can make: the synchronous part of each
    handler, the rest of a handler (started on some state [s0]) applied when
    its response arrives, and [setCityResults], the only write of the
    autocomplete effect. *)
Inductive update : Home → Home → Prop :=
| update_changeDate s v : update s (changeDate v s)
| update_changeTime s v : update s (changeTime v s)
| update_changeCity s v : update s (changeCity v s)
| update_changeQuestion s v : update s (changeQuestion v s)
| update_cityResults s v : update s (setCityResults v s)
| update_selectCity s city s' : selectCity city s = Ok s' → update s s'
| update_handleCalculate s : update s (now (handleCalculate s))
| update_handleChat s : update s (now (handleChat s))
| update_calculated s0 req k res s :
    pending (handleCalculate s0) = Some (req, k) → update s (k res s).1
| update_answered s0 req k res s :
    pending (handleChat s0) = Some (req, k) → update s (k res s).1.


Definition pune : json :=
  JObj {[ "name" := JStr "Pune"; "lat" := JNum 18.5; "lon" := JNum 73.75 ]}.

(** ** The result monad *)

Lemma bind_Ok {A B} (m : result A) (k : A → result B) (b : B) :
  m ≫= k = Ok b ↔ ∃ a, m = Ok a ∧ k a = Ok b.
Proof.
  destruct m as [a|]; simpl; split.
  - intros H. exists a. done.
  - intros (a' & [= <-] & H). done.
  - done.
  - intros (a' & [=] & _).
Qed.

Ltac inv_bind H :=
  let a := fresh "r" in
  let Ha := fresh "Hr" in
  apply bind_Ok in H; destruct H as (a & Ha & H).

(** ** The house layer *)

Lemma houseKey_inj (h k : nat) : houseKey h = houseKey k → h = k.
Proof.
  unfold houseKey. intros [= H]. pose proof (pretty_nat_inj _ _ H). lia.
Qed.

Lemma houseLayer_Ok (data : json) (centers : list point) (i : nat)
    (texts : list house_text) :
  houseLayer data i centers = Ok texts ↔
  length texts = length centers
  ∧ ∀ k pos, centers !! k = Some pos →
      ∃ ch, renderPlanets data (i + k) = Ok ch
            ∧ texts !! k = Some (HouseText (i + k) pos ch).
Proof.
  revert i texts. induction centers as [|pos0 centers IH]; intros i texts.
  - simpl. split.
    + intros [= <-]. split; [done|]. intros k pos Hk. done.
    + intros [Hlen _]. by destruct texts.
  - cbn [houseLayer]. split.
    + intros H. inv_bind H. inv_bind H. injection H as <-.
      apply IH in Hr0 as [Hlen Hrest]. split; [simpl; by rewrite Hlen|].
      intros [|k] pos Hk.
      * injection Hk as <-. exists r. by rewrite Nat.add_0_r.
      * destruct (Hrest k pos Hk) as (ch & Hch & Ht).
        exists ch. by rewrite Nat.add_succ_r.
    + intros [Hlen Hall]. destruct texts as [|t texts]; [done|].
      destruct (Hall 0%nat pos0 eq_refl) as (ch & Hch & [= ->]).
      rewrite Nat.add_0_r in Hch. rewrite Hch. simpl.
      assert (houseLayer data (S i) centers = Ok texts) as ->; [|by rewrite Nat.add_0_r].
      apply IH. split; [by injection Hlen|].
      intros k pos Hk. destruct (Hall (S k) pos Hk) as (ch' & Hch' & Ht).
      exists ch'. by rewrite Nat.add_succ_r in Hch', Ht.
Qed.

Lemma houseLayer_pos (data : json) (centers : list point) (i : nat)
    (texts : list house_text) :
  houseLayer data i centers = Ok texts → house_pos <$> texts = centers.
Proof.
  revert i texts. induction centers as [|pos0 centers IH]; intros i texts H.
  - by injection H as <-.
  - cbn [houseLayer] in H. inv_bind H. inv_bind H. injection H as <-.
    simpl. f_equal. by eapply IH.
Qed.

Lemma houseLayer_ext (d1 d2 : json) (centers : list point) (i : nat) :
  (∀ k, (k < length centers)%nat →
        renderPlanets d1 (i + k) = renderPlanets d2 (i + k)) →
  houseLayer d1 i centers = houseLayer d2 i centers.
Proof.
  revert i. induction centers as [|pos0 centers IH]; intros i H; [done|].
  cbn [houseLayer]. specialize (H 0%nat) as H0. rewrite Nat.add_0_r in H0.
  rewrite H0 by (simpl; lia). rewrite (IH (S i)); [done|].
  intros k Hk. replace (S i + k)%nat with (i + S k)%nat by lia.
  apply H. simpl. lia.
Qed.

Lemma NorthIndianChart_Ok (data : json) (ascendantSign : string) (c : chart) :
  NorthIndianChart data ascendantSign = Ok c ↔
  houseLayer data 0 HOUSE_CENTERS = Ok (houses c)
  ∧ signs c = (λ '(pos, houseIdx),
                 SignText pos (getSignNum (ascNum ascendantSign) houseIdx))
              <$> SIGN_LABELS.
Proof.
  unfold NorthIndianChart. split.
  - intros H. inv_bind H. injection H as <-. done.
  - intros [H1 H2]. rewrite H1. simpl. destruct c. simpl in *. by rewrite H2.
Qed.

(** ** Sign numbers *)

Lemma SIGN_MAP_ordinal (name : string) (a : Z) :
  SIGN_MAP !! name = Some a → 1 ≤ a ≤ 12.
Proof.
  intros H. apply elem_of_list_to_map_2 in H.
  repeat (apply elem_of_cons in H as [[= _ ->]|H]; [lia|]).
  by apply elem_of_nil in H.
Qed.

Lemma ascNum_recognized (name : string) (a : Z) :
  SIGN_MAP !! name = Some a → ascNum name = VNumber a.
Proof.
  intros H. pose proof (SIGN_MAP_ordinal _ _ H) as Ha.
  unfold ascNum, lookup_literal. rewrite H. simpl.
  destruct (Z.eqb_spec a 0); [lia|done].
Qed.

Lemma ascNum_default (name : string) :
  SIGN_MAP !! name = None → name ∉ Object_prototype →
  ascNum name = VNumber 1.
Proof.
  intros H Hn. unfold ascNum, lookup_literal. rewrite H.
  by rewrite bool_decide_eq_false_2.
Qed.

Lemma getSignNum_mod (a h : Z) :
  0 ≤ a + h - 1 →
  getSignNum (VNumber a) h = Finite ((a + h - 1) mod 12 + 1).
Proof.
  intros H. unfold getSignNum. by rewrite Z.rem_mod_nonneg by lia.
Qed.

(** C1.  For an ascendant ordinal [a] in 1..12 and a house index [h] in
    0..11, [getSignNum] is [((a + h - 1) mod 12) + 1]; the value lies in
    1..12, house 0 carries [a] itself, and the twelve houses in order carry
    [1; ...; 12] rotated to start at [a]; these are the sign numbers of any
    chart rendered for the sign whose ordinal is [a]. *)
Theorem getSignNum_rotation (a h : Z) :
  1 ≤ a ≤ 12 → 0 ≤ h ≤ 11 →
  getSignNum (VNumber a) h = Finite ((a + h - 1) mod 12 + 1)
  ∧ 1 ≤ (a + h - 1) mod 12 + 1 ≤ 12
  ∧ getSignNum (VNumber a) 0 = Finite a
  ∧ getSignNum (VNumber a) <$> seqZ 0 12
    = Finite <$> rotate (Z.to_nat (a - 1)) (seqZ 1 12)
  ∧ ∀ name data ch,
      SIGN_MAP !! name = Some a → NorthIndianChart data name = Ok ch →
      sign_num <$> signs ch
      = Finite <$> rotate (Z.to_nat (a - 1)) (seqZ 1 12).
Proof.
  intros Ha Hh.
  assert (Hrot : getSignNum (VNumber a) <$> seqZ 0 12
                 = Finite <$> rotate (Z.to_nat (a - 1)) (seqZ 1 12)).
  { assert (Hcase : a ∈ seqZ 1 12) by (apply elem_of_seqZ; lia).
    clear Ha. revert Hcase. generalize a. apply Forall_forall.
    by repeat constructor. }
  refine (conj _ (conj _ (conj _ (conj Hrot _)))).
  - apply getSignNum_mod. lia.
  - pose proof (Z.mod_pos_bound (a + h - 1) 12). lia.
  - unfold getSignNum. f_equal. rewrite Z.rem_small; lia.
  - intros name data ch Hname [_ Hs]%NorthIndianChart_Ok.
    rewrite Hs, (ascNum_recognized name a Hname), <- Hrot.
    by rewrite <- list_fmap_compose.
Qed.

Lemma getSignNum_rotation_witness :
  getSignNum (VNumber 10) 3 = Finite 1
  ∧ getSignNum (VNumber 10) <$> seqZ 0 12
    = Finite <$> [10; 11; 12; 1; 2; 3; 4; 5; 6; 7; 8; 9].
Proof.
  destruct (getSignNum_rotation 10 3) as (H1 & _ & _ & H4 & _); [lia|lia|].
  split; [exact H1|exact H4].
Defined.

(** C2.  The name ["constructor"] is not a sign, yet [SIGN_MAP] answers it
    with the member it inherits from [Object.prototype]; that is truthy, so
    no default is taken, and every sign number of the chart is [NaN] and not
    the number an Aries ascendant gives. *)
Theorem ascNum_inherited_name :
  SIGN_MAP !! "constructor" = None
  ∧ ascNum "constructor" = VObject "constructor"
  ∧ (∀ h, getSignNum (ascNum "constructor") h = NaN)
  ∧ (∀ h, getSignNum (ascNum "constructor") h ≠ getSignNum (ascNum "Aries") h)
  ∧ (∃ c, NorthIndianChart (JObj ∅) "constructor" = Ok c
          ∧ sign_num <$> signs c = replicate 12 NaN).
Proof.
  split_and!; try done. by eexists.
Qed.

(** ** Planet labels of one house *)

Lemma substring_0_2 (s : string) : substring s 0 2 = String.substring 0 2 s.
Proof.
  unfold substring.
  destruct s as [|c [|d s]]; [done..|].
  cbn [String.length].
  replace (Z.min (Z.max 0 0) _) with 0 by lia.
  replace (Z.min (Z.max 2 0) _) with 2 by lia.
  done.
Qed.

Lemma substring_0_2_prefix (s : string) :
  String.prefix (String.substring 0 2 s) s = true.
Proof.
  destruct s as [|c [|d s]]; simpl;
    repeat (destruct (Ascii.ascii_dec _ _); [|congruence]); try done.
  by destruct s.
Qed.

Lemma substring_0_2_length (s : string) :
  String.length (String.substring 0 2 s) = Nat.min 2 (String.length s).
Proof. by destruct s as [|c [|d [|e s]]]. Qed.

(** The labels written out by [spans_from], field by field. *)
Section spans_from.
Variable cx : Z.

Local Ltac by_names names :=
  let IH := fresh "IH" in
  induction names as [|? names IH]; intros ?; simpl; [done|]; by rewrite IH.

Lemma spans_from_length (names : list string) :
  ∀ i, length (spans_from cx i names) = length names.
Proof. by_names names. Qed.

Lemma spans_from_key (names : list string) :
  ∀ i, tspan_key <$> spans_from cx i names = names.
Proof. by_names names. Qed.

Lemma spans_from_x (names : list string) :
  ∀ i, tspan_x <$> spans_from cx i names = replicate (length names) cx.
Proof. by_names names. Qed.

Lemma spans_from_text (names : list string) :
  ∀ i, tspan_text <$> spans_from cx i names = (λ s, substring s 0 2) <$> names.
Proof. by_names names. Qed.

Lemma spans_from_dy (names : list string) :
  ∀ i, tspan_dy <$> spans_from cx i names
       = (λ k, if (k =? 0)%nat then 0 else 12) <$> seq i (length names).
Proof. by_names names. Qed.

Lemma spans_from_codes (names : list string) :
  ∀ i, Forall2 (λ t name, tspan_text t = substring name 0 2)
         (spans_from cx i names) names.
Proof.
  induction names as [|s names IH]; intros i; constructor; [done|]. apply IH.
Qed.

(** Past the first label every [dy] is 12, so the offsets advance by 12. *)
Lemma offsets_spans_from_S (acc : Z) (i : nat) (names : list string) :
  offsets acc (spans_from cx (S i) names)
  = (λ k, acc + 12 * (k + 1)) <$> seqZ 0 (Z.of_nat (length names)).
Proof.
  revert acc i. induction names as [|s names IH]; intros acc i; [done|].
  cbn [spans_from offsets tspan_dy length Nat.eqb].
  rewrite Nat2Z.inj_succ, seqZ_cons by lia. rewrite fmap_cons. f_equal; [lia..|].
  rewrite IH. replace (Z.pred (Z.succ (Z.of_nat (length names))))
    with (Z.of_nat (length names)) by lia.
  change (Z.succ 0) with (1 + 0).
  rewrite <- fmap_add_seqZ, <- list_fmap_compose.
  apply list_fmap_ext. intros _ k _. simpl. lia.
Qed.

Lemma offsets_spans_from_0 (names : list string) :
  offsets 0 (spans_from cx 0 names)
  = (λ k, 12 * k) <$> seqZ 0 (Z.of_nat (length names)).
Proof.
  destruct names as [|s names]; [done|].
  cbn [spans_from offsets tspan_dy length Nat.eqb].
  rewrite Nat2Z.inj_succ, seqZ_cons by lia. rewrite fmap_cons. f_equal.
  rewrite offsets_spans_from_S.
  replace (Z.pred (Z.succ (Z.of_nat (length names))))
    with (Z.of_nat (length names)) by lia.
  change (Z.succ 0) with (1 + 0).
  rewrite <- fmap_add_seqZ, <- list_fmap_compose.
  apply list_fmap_ext. intros _ k _. simpl. lia.
Qed.

End spans_from.

Lemma label_positions_spans_from (c : point) (names : list string) :
  label_positions c (spans_from (pos_x c) 0 names)
  = (λ k, Point (pos_x c) (pos_y c + 12 * k))
      <$> seqZ 0 (Z.of_nat (length names)).
Proof.
  unfold label_positions.
  rewrite spans_from_x, offsets_spans_from_0, <- list_fmap_compose.
  rewrite zip_with_fmap_r, zip_with_replicate_l by (rewrite length_seqZ; lia).
  done.
Qed.

Lemma sample_house_1 : house_has sample_data 0 three_planets.
Proof. by eexists _, _. Qed.

Lemma crowded_house_7 : house_has crowded_data 6 (planet <$> crowded_names).
Proof. by eexists _, _. Qed.

Lemma three_planets_named :
  Forall2 planet_named three_planets ["Sun"; "Mercury"; "Venus"].
Proof. repeat constructor; by eexists. Qed.

Lemma planets_named (names : list string) :
  Forall2 planet_named (planet <$> names) names.
Proof.
  induction names as [|s names IH]; constructor; [|done].
  eexists. split; [done|]. apply lookup_singleton_eq.
Qed.

(** One house [h] with centre [c]. *)
Section one_house.
Variables (h : nat) (c : point).
Hypothesis centre : HOUSE_CENTERS !! h = Some c.

Lemma planetSpan_named (p : json) (name : string) (i : nat) :
  planet_named p name →
  planetSpan h p i
  = Ok (Tspan name (pos_x c) (if (i =? 0)%nat then 0 else 12)
              (substring name 0 2)).
Proof using centre.
  intros (m & -> & Hm). unfold planetSpan. simpl. by rewrite Hm, centre.
Qed.

Lemma mapFrom_planetSpan (ps : list json) (names : list string) (i : nat) :
  Forall2 planet_named ps names →
  mapFrom (planetSpan h) i ps = Ok (spans_from (pos_x c) i names).
Proof using centre.
  intros Hps. revert i.
  induction Hps as [|p name ps names Hp _ IH]; intros i; [done|].
  simpl. rewrite (planetSpan_named p name i Hp). simpl. by rewrite IH.
Qed.

(** The entry of the house in [data] lists the planets [ps], objects named
    [names] in that order. *)
Section planets.
Variables (data : json) (ps : list json) (names : list string).
Hypothesis entry : house_has data h ps.
Hypothesis named : Forall2 planet_named ps names.

(** The markup [renderPlanets] returns for the house. *)
Lemma renderPlanets_has :
  renderPlanets data h = Ok (Some (spans_from (pos_x c) 0 names)).
Proof using centre entry named.
  destruct entry as (m & e & -> & Hm & He). unfold renderPlanets. simpl.
  rewrite Hm. simpl. rewrite He. simpl.
  by rewrite (mapFrom_planetSpan ps names 0 named).
Qed.

(** C3.  For a house [h] with centre [c] whose entry lists planets named
    [names], [renderPlanets] gives one label per planet in list order, each
    with the [x] of [c]; the first has [dy] 0 and every later one [dy] 12, so
    the first is at offset 0 and the [k]-th at offset [12 * k], offsets
    increase strictly down the list, and the chart puts these labels in the
    [text] element positioned at [c]. *)
Theorem renderPlanets_stacking :
  ∃ spans,
    renderPlanets data h = Ok (Some spans)
    ∧ tspan_key <$> spans = names
    ∧ tspan_text <$> spans = (λ s, substring s 0 2) <$> names
    ∧ tspan_x <$> spans = replicate (length names) (pos_x c)
    ∧ tspan_dy <$> spans
      = (λ k, if (k =? 0)%nat then 0 else 12) <$> seq 0 (length names)
    ∧ offsets 0 spans = (λ k, 12 * k) <$> seqZ 0 (Z.of_nat (length names))
    ∧ label_positions c spans
      = (λ k, Point (pos_x c) (pos_y c + 12 * k))
          <$> seqZ 0 (Z.of_nat (length names))
    ∧ (∀ i j oi oj, (i < j)%nat →
         offsets 0 spans !! i = Some oi → offsets 0 spans !! j = Some oj →
         oi < oj)
    ∧ (∀ asc ch, NorthIndianChart data asc = Ok ch →
         houses ch !! h = Some (HouseText h c (Some spans))).
Proof using centre entry named.
  exists (spans_from (pos_x c) 0 names).
  split; [apply renderPlanets_has|].
  split; [apply spans_from_key|].
  split; [apply spans_from_text|].
  split; [apply spans_from_x|].
  split; [apply spans_from_dy|].
  split; [apply offsets_spans_from_0|].
  split; [apply label_positions_spans_from|].
  split.
  - intros i j oi oj Hij. rewrite offsets_spans_from_0, !list_lookup_fmap.
    intros Hi Hj.
    apply fmap_Some in Hi as (ki & Hi & ->).
    apply fmap_Some in Hj as (kj & Hj & ->).
    apply lookup_seqZ in Hi as [-> _]. apply lookup_seqZ in Hj as [-> _]. lia.
  - intros asc ch Hch. apply NorthIndianChart_Ok in Hch as [Hl _].
    apply houseLayer_Ok in Hl as [_ Hl].
    destruct (Hl h c centre) as (ch' & Hch' & Ht). simpl in Hch', Ht.
    rewrite renderPlanets_has in Hch'. by injection Hch' as <-.
Qed.

(** C7.  A planet list of any length [n] gives exactly [n] labels, in list
    order with none dropped, and the [i]-th sits at offset [12 * i] however
    large [i] is. *)
Theorem renderPlanets_no_limit :
  ∃ spans,
    renderPlanets data h = Ok (Some spans)
    ∧ length spans = length ps
    ∧ tspan_key <$> spans = names
    ∧ ∀ i, (i < length ps)%nat →
        offsets 0 spans !! i = Some (12 * Z.of_nat i).
Proof using centre entry named.
  exists (spans_from (pos_x c) 0 names).
  pose proof (Forall2_length _ _ _ named) as Hlen.
  split; [apply renderPlanets_has|].
  split; [by rewrite spans_from_length|].
  split; [apply spans_from_key|].
  intros i Hi. rewrite offsets_spans_from_0, list_lookup_fmap.
  by rewrite (lookup_seqZ_lt 0) by lia.
Qed.

(** C8.  Whatever the length of a planet's name, its display code is
    [name.substring(0, 2)]: the first two characters, or all of the name when
    it has fewer; and rendering a list of such planets does not throw. *)
Theorem display_code_total :
  ∃ spans,
    renderPlanets data h = Ok (Some spans)
    ∧ Forall2 (λ t name,
         tspan_text t = substring name 0 2
         ∧ tspan_text t = String.substring 0 2 name
         ∧ String.prefix (tspan_text t) name = true
         ∧ String.length (tspan_text t) = Nat.min 2 (String.length name))
        spans names.
Proof using centre entry named.
  exists (spans_from (pos_x c) 0 names).
  split; [apply renderPlanets_has|].
  eapply Forall2_impl; [apply spans_from_codes|].
  intros t name ->. rewrite substring_0_2.
  split_and!; [done|done|apply substring_0_2_prefix|apply substring_0_2_length].
Qed.

End planets.
End one_house.

Lemma renderPlanets_stacking_witness :
  ∃ spans,
    renderPlanets sample_data 0 = Ok (Some spans)
    ∧ tspan_text <$> spans = ["Su"; "Me"; "Ve"]
    ∧ label_positions (Point 50 20) spans
      = [Point 50 20; Point 50 32; Point 50 44].
Proof.
  destruct (renderPlanets_stacking 0 (Point 50 20) eq_refl sample_data
              three_planets ["Sun"; "Mercury"; "Venus"] sample_house_1
              three_planets_named)
    as (spans & Hr & _ & Htext & _ & _ & _ & Hpos & _).
  exists spans. split; [exact Hr|]. split; [exact Htext|exact Hpos].
Defined.

Lemma renderPlanets_no_limit_witness :
  ∃ spans,
    renderPlanets crowded_data 6 = Ok (Some spans)
    ∧ length spans = 7%nat
    ∧ offsets 0 spans !! 6%nat = Some 72.
Proof.
  destruct (renderPlanets_no_limit 6 (Point 50 80) eq_refl crowded_data
              (planet <$> crowded_names) crowded_names
              crowded_house_7 (planets_named crowded_names))
    as (spans & Hr & Hlen & _ & Hoff).
  exists spans. split; [exact Hr|]. split; [exact Hlen|].
  apply (Hoff 6%nat). simpl. lia.
Defined.

Lemma display_code_total_witness :
  ∃ spans,
    renderPlanets crowded_data 6 = Ok (Some spans)
    ∧ tspan_text <$> spans = ["Su"; "Mo"; "Ma"; "Me"; "Ju"; "K"; ""].
Proof.
  destruct (display_code_total 6 (Point 50 80) eq_refl crowded_data
              (planet <$> crowded_names) crowded_names
              crowded_house_7 (planets_named crowded_names))
    as (spans & Hr & _).
  exists spans. split; [exact Hr|].
  vm_compute in Hr. by injection Hr as <-.
Defined.

(** ** Houses without data *)

Lemma renderPlanets_no_planet_list (m : gmap string json) (h : nat) :
  no_planet_list m h → renderPlanets (JObj m) h = Ok None.
Proof.
  unfold renderPlanets. simpl.
  intros [->|[->|(e & -> & [He|He])]]; [done..| |]; simpl; by rewrite He.
Qed.

Lemma renderPlanets_insert_ne (m : gmap string json) (h k : nat) (v : json) :
  h ≠ k →
  renderPlanets (JObj (<[houseKey h := v]> m)) k = renderPlanets (JObj m) k.
Proof.
  intros Hne. unfold renderPlanets. simpl.
  rewrite lookup_insert_ne; [done|]. intros Heq. by apply houseKey_inj in Heq.
Qed.

(** C4.  When the payload has no entry for house [h] (absent or [null]), or
    an entry without a planet list ([planets] absent or [null]),
    [renderPlanets] returns [null] for it, no label, and does not throw;
    and whatever the entry could have been, a chart that renders with it
    also renders without it, identical but for house [h] having no
    labels. *)
Theorem missing_house_is_empty (m : gmap string json) (h : nat) (c : point) :
  HOUSE_CENTERS !! h = Some c → no_planet_list m h →
  renderPlanets (JObj m) h = Ok None
  ∧ labels_of None = []
  ∧ ∀ v asc ch,
      NorthIndianChart (JObj (<[houseKey h := v]> m)) asc = Ok ch →
      NorthIndianChart (JObj m) asc
      = Ok (Chart (<[h := HouseText h c None]> (houses ch)) (signs ch)).
Proof.
  intros Hc Hmiss.
  pose proof (renderPlanets_no_planet_list m h Hmiss) as Hnull.
  split_and!; [done..|].
  intros v asc ch Hch. apply NorthIndianChart_Ok in Hch as [Hl Hs].
  apply NorthIndianChart_Ok. split; [|done]. cbn [houses].
  apply houseLayer_Ok in Hl as [Hlen Hall]. apply houseLayer_Ok.
  split; [by rewrite length_insert|].
  intros k pos Hk. simpl. destruct (decide (k = h)) as [->|Hne].
  - exists None. split; [done|].
    rewrite list_lookup_insert_eq; [congruence|].
    rewrite Hlen. by eapply lookup_lt_Some.
  - destruct (Hall k pos Hk) as (ch' & Hr & Ht). simpl in Hr, Ht.
    exists ch'. rewrite renderPlanets_insert_ne in Hr by done.
    by rewrite list_lookup_insert_ne.
Qed.

Lemma missing_house_is_empty_witness :
  renderPlanets sample_data 2 = Ok None
  ∧ renderPlanets sample_data 3 = Ok None.
Proof.
  split.
  - apply (missing_house_is_empty sample_map 2 (Point 10 20) eq_refl).
    by left.
  - apply (missing_house_is_empty sample_map 3 (Point 25 50) eq_refl).
    right. right. eexists. split; [reflexivity|]. by left.
Defined.

(** C5.  When every house has an empty planet list, for any ascendant sign
    the chart renders with no planet label at all and with its twelve
    sign-number labels, one per house index 0..11 at the twelve written
    positions. *)
Theorem empty_houses_chart (m : gmap string json) (asc : string) :
  (∀ h, (h < 12)%nat →
     ∃ e, m !! houseKey h = Some (JObj e) ∧ e !! "planets" = Some (JArr [])) →
  ∃ ch,
    NorthIndianChart (JObj m) asc = Ok ch
    ∧ planet_labels ch = []
    ∧ length (signs ch) = 12%nat
    ∧ sign_pos <$> signs ch = SIGN_LABELS.*1
    ∧ sign_num <$> signs ch = getSignNum (ascNum asc) <$> seqZ 0 12.
Proof.
  intros Hall.
  assert (Hr : ∀ h, (h < 12)%nat → renderPlanets (JObj m) h = Ok (Some [])).
  { intros h Hh. destruct (Hall h Hh) as (e & Hm & He).
    unfold renderPlanets. simpl. rewrite Hm. simpl. by rewrite He. }
  exists (Chart (imap (λ k pos, HouseText k pos (Some [])) HOUSE_CENTERS)
            ((λ '(pos, houseIdx),
                SignText pos (getSignNum (ascNum asc) houseIdx))
               <$> SIGN_LABELS)).
  split; [|by split_and!].
  apply NorthIndianChart_Ok. split; [|done]. cbn [houses].
  apply houseLayer_Ok. split; [by rewrite length_imap|].
  intros k pos Hk. exists (Some []). split.
  - apply Hr. by apply lookup_lt_Some in Hk.
  - by rewrite list_lookup_imap, Hk.
Qed.

Lemma empty_houses_map_lookup (h : nat) :
  (h < 12)%nat →
  ∃ e, match empty_houses with JObj m => m !! houseKey h | _ => None end
       = Some (JObj e)
       ∧ e !! "planets" = Some (JArr []).
Proof.
  intros Hh. exists {[ "planets" := JArr [] ]}.
  do 12 (destruct h as [|h]; [by vm_compute|]). lia.
Qed.

Lemma empty_houses_chart_witness :
  ∃ ch,
    NorthIndianChart empty_houses "Libra" = Ok ch
    ∧ planet_labels ch = []
    ∧ sign_num <$> signs ch
      = Finite <$> [7; 8; 9; 10; 11; 12; 1; 2; 3; 4; 5; 6].
Proof.
  destruct (empty_houses_chart _ "Libra" empty_houses_map_lookup)
    as (ch & Hch & Hnone & _ & _ & Hnum).
  exists ch. split; [exact Hch|]. split; [exact Hnone|exact Hnum].
Defined.

(** ** Dependence on the input *)

(** C6.  The component is a function of the chart input alone: payloads that
    agree on the twelve house entries give, for the same ascendant sign, the
    same result (the same chart, or the same failure); in particular two
    evaluations on one input agree. *)
Theorem NorthIndianChart_deterministic (d1 d2 : json) (asc : string) :
  same_chart_input d1 d2 →
  NorthIndianChart d1 asc = NorthIndianChart d2 asc.
Proof.
  intros Hsame. unfold NorthIndianChart.
  rewrite (houseLayer_ext d1 d2); [done|].
  intros k Hk. unfold renderPlanets. simpl. by rewrite Hsame.
Qed.

Lemma sample_same_chart_input : same_chart_input sample_data sample_houses_only.
Proof.
  intros h Hh. do 12 (destruct h as [|h]; [by vm_compute|]). lia.
Qed.

Lemma NorthIndianChart_deterministic_witness :
  sample_data ≠ sample_houses_only
  ∧ NorthIndianChart sample_data "Libra"
    = NorthIndianChart sample_houses_only "Libra".
Proof.
  split.
  - intros H. apply (f_equal (λ d, get d "ascendant")) in H.
    vm_compute in H. discriminate H.
  - apply (NorthIndianChart_deterministic _ _ "Libra" sample_same_chart_input).
Defined.

(** ** The anchor points *)

(** C9.  In any two charts the component renders, whatever the payloads and
    ascendant signs, house [i]'s [text] element sits at [HOUSE_CENTERS[i]]
    and the sign-number labels sit at the twelve written positions. *)
Theorem anchors_fixed (d1 d2 : json) (a1 a2 : string) (c1 c2 : chart) :
  NorthIndianChart d1 a1 = Ok c1 → NorthIndianChart d2 a2 = Ok c2 →
  house_pos <$> houses c1 = house_pos <$> houses c2
  ∧ sign_pos <$> signs c1 = sign_pos <$> signs c2
  ∧ house_pos <$> houses c1 = HOUSE_CENTERS
  ∧ sign_pos <$> signs c1 = SIGN_LABELS.*1.
Proof.
  intros [Hl1 Hs1]%NorthIndianChart_Ok [Hl2 Hs2]%NorthIndianChart_Ok.
  apply houseLayer_pos in Hl1, Hl2. rewrite Hl1, Hl2, Hs1, Hs2.
  by split_and!.
Qed.

Lemma anchors_fixed_witness :
  ∃ c1 c2,
    NorthIndianChart sample_data "Libra" = Ok c1
    ∧ NorthIndianChart crowded_data "Aries" = Ok c2
    ∧ house_pos <$> houses c1 = house_pos <$> houses c2
    ∧ sign_pos <$> signs c1 = sign_pos <$> signs c2.
Proof.
  eexists _, _. split; [by vm_compute|]. split; [by vm_compute|].
  eapply (anchors_fixed sample_data crowded_data "Libra" "Aries");
    by vm_compute.
Defined.

(** C10.  In a rendered chart the twelve house anchors are pairwise
    distinct, the twelve sign-number positions are pairwise distinct, no
    position is shared between the two groups either, and all lie in the
    0..100 box; the unread table [SIGN_POSITIONS] does repeat (50, 45), at
    its entries for houses 1 and 10. *)
Theorem rendered_positions_distinct (d : json) (asc : string) (ch : chart) :
  NorthIndianChart d asc = Ok ch →
  length (houses ch) = 12%nat ∧ length (signs ch) = 12%nat
  ∧ NoDup (house_pos <$> houses ch)
  ∧ NoDup (sign_pos <$> signs ch)
  ∧ NoDup ((house_pos <$> houses ch) ++ (sign_pos <$> signs ch))
  ∧ Forall in_view_box (house_pos <$> houses ch)
  ∧ Forall in_view_box (sign_pos <$> signs ch)
  ∧ SIGN_POSITIONS.*1 !! 0%nat = Some (Point 50 45)
  ∧ SIGN_POSITIONS.*1 !! 9%nat = Some (Point 50 45)
  ∧ ¬ NoDup SIGN_POSITIONS.*1.
Proof.
  intros [Hl Hs]%NorthIndianChart_Ok.
  pose proof (houseLayer_pos _ _ _ _ Hl) as Hpos.
  assert (Hlen : length (houses ch) = 12%nat).
  { by rewrite <- (length_fmap house_pos), Hpos. }
  rewrite Hpos, Hs. split_and!; try done.
  - compute_done.
  - compute_done.
  - compute_done.
  - unfold in_view_box. repeat constructor; simpl; lia.
  - unfold in_view_box. repeat constructor; simpl; lia.
  - compute_done.
Qed.

Lemma rendered_positions_distinct_witness :
  ∃ ch,
    NorthIndianChart sample_data "Libra" = Ok ch
    ∧ NoDup (house_pos <$> houses ch)
    ∧ NoDup (sign_pos <$> signs ch).
Proof.
  eexists. split; [by vm_compute|].
  edestruct (rendered_positions_distinct sample_data "Libra")
    as (_ & _ & H1 & H2 & _); [by vm_compute|].
  split; [exact H1|exact H2].
Defined.

(** ** What [renderPlanets] returns, case by case *)

Lemma result_cases {A} (r : result (option A)) :
  r = TypeError ∨ r = Ok None ∨ ∃ a, r = Ok (Some a).
Proof. destruct r as [[a|]|]; eauto. Qed.

Lemma planet_named_inj (p : json) (n1 n2 : string) :
  planet_named p n1 → planet_named p n2 → n1 = n2.
Proof.
  intros (m1 & E1 & H1) (m2 & E2 & H2). rewrite E1 in E2.
  injection E2 as <-. congruence.
Qed.

Section one_house_cases.
Variables (h : nat) (c : point).
Hypothesis centre : HOUSE_CENTERS !! h = Some c.

Lemma planetSpan_Ok_inv (p : json) (i : nat) (t : tspan) :
  planetSpan h p i = Ok t →
  ∃ name, planet_named p name
          ∧ t = Tspan name (pos_x c) (if (i =? 0)%nat then 0 else 12)
                      (substring name 0 2).
Proof using centre.
  unfold planetSpan. rewrite centre. intros H. inv_bind H.
  destruct r as [[| | |s| |]|]; try done. injection H as <-.
  destruct p as [| | | | |m]; try done. injection Hr as Hm.
  exists s. split; [by exists m|done].
Qed.

Lemma mapFrom_planetSpan_inv (ps : list json) (i : nat) (spans : list tspan) :
  mapFrom (planetSpan h) i ps = Ok spans →
  ∃ names, Forall2 planet_named ps names
           ∧ spans = spans_from (pos_x c) i names.
Proof using centre.
  revert i spans. induction ps as [|p ps IH]; intros i spans H.
  - injection H as <-. by exists [].
  - cbn [mapFrom] in H. inv_bind H. inv_bind H. injection H as <-.
    apply planetSpan_Ok_inv in Hr as (name & Hp & ->).
    apply IH in Hr0 as (names & Hps & ->).
    exists (name :: names). split; [by constructor|done].
Qed.

Lemma array_map_planet_list (pl : json) :
  planet_list pl ↔ ∃ spans, array_map pl (planetSpan h) = Ok spans.
Proof using centre.
  split.
  - intros (ps & names & -> & Hps). eexists. simpl.
    by apply (mapFrom_planetSpan h c centre ps names).
  - intros [spans H]. destruct pl as [| | | |ps|]; try done.
    apply mapFrom_planetSpan_inv in H as (names & Hps & _).
    by exists ps, names.
Qed.

(** X1.  [renderPlanets] returns labels exactly for a house whose entry is an
    object with an array [planets] of objects with string names, and the
    labels are then the ones of those names in order: none is invented,
    dropped or reordered. *)
Theorem renderPlanets_labels_iff (data : json) (spans : list tspan) :
  renderPlanets data h = Ok (Some spans) ↔
  ∃ ps names, house_has data h ps ∧ Forall2 planet_named ps names
              ∧ spans = spans_from (pos_x c) 0 names.
Proof using centre.
  split.
  - unfold renderPlanets. intros H. inv_bind H.
    destruct r as [hd|]; [|done].
    destruct (truthy hd) eqn:Hhd; [|done]. simpl in H. inv_bind H.
    destruct r as [pl|]; [|done].
    destruct (truthy pl) eqn:Hpl; [|done]. simpl in H. inv_bind H.
    injection H as <-. destruct pl as [| | | |ps|]; try done.
    apply mapFrom_planetSpan_inv in Hr1 as (names & Hps & ->).
    destruct data as [| | | | |m]; try done. injection Hr as Hm.
    destruct hd as [| | | | |e]; try done. injection Hr0 as He.
    exists ps, names. split; [by exists m, e|done].
  - intros (ps & names & Hhas & Hps & ->).
    by apply (renderPlanets_has h c centre data ps names).
Qed.

(** X2.  [renderPlanets] throws exactly when [data] is [null], or the house
    entry is an object whose [planets] is truthy without being an array of
    objects with string names. *)
Theorem renderPlanets_throws_iff (data : json) :
  renderPlanets data h = TypeError ↔
  data = JNull
  ∨ ∃ m e pl, data = JObj m ∧ m !! houseKey h = Some (JObj e)
              ∧ e !! "planets" = Some pl ∧ truthy pl = true
              ∧ ¬ planet_list pl.
Proof using centre.
  unfold renderPlanets. split.
  - destruct data as [| | | | |m]; try done; [by left|]. simpl.
    destruct (m !! houseKey h) as [hd|] eqn:Hm; [|done].
    destruct (truthy hd) eqn:Hhd; [|done]. simpl.
    destruct hd as [| | | | |e]; try done. simpl.
    destruct (e !! "planets") as [pl|] eqn:He; [|done].
    destruct (truthy pl) eqn:Hpl; [|done]. simpl.
    destruct (array_map pl (planetSpan h)) as [spans|] eqn:Hmap; [done|].
    intros _. right. exists m, e, pl. split_and!; try done.
    intros [spans Hspans]%array_map_planet_list. congruence.
  - intros [->|(m & e & pl & -> & Hm & He & Hpl & Hbad)]; [done|].
    simpl. rewrite Hm. simpl. rewrite He, Hpl. simpl.
    destruct (array_map pl (planetSpan h)) as [spans|] eqn:Hmap; [|done].
    destruct Hbad. apply array_map_planet_list. by exists spans.
Qed.

End one_house_cases.

(** X3.  [renderPlanets] returns [null] exactly when [data] is not [null]
    and the house entry is missing or falsy, or is not an object, or is an
    object whose [planets] is missing or falsy; a [planets] of [0], [false]
    or the empty string counts as no list. *)
Theorem renderPlanets_null_iff (data : json) (h : nat) :
  renderPlanets data h = Ok None ↔
  data ≠ JNull
  ∧ ∀ m e pl, data = JObj m → m !! houseKey h = Some (JObj e) →
              e !! "planets" = Some pl → truthy pl = false.
Proof.
  unfold renderPlanets. split.
  - intros H. split; [by intros ->|].
    intros m e pl -> Hm He. simpl in H. rewrite Hm in H. simpl in H.
    rewrite He in H. simpl in H. destruct (truthy pl); [|done].
    simpl in H. by destruct (array_map pl (planetSpan h)).
  - intros [Hnn Hall]. destruct data as [| | | | |m]; try done. simpl.
    destruct (m !! houseKey h) as [hd|] eqn:Hm; [|done].
    destruct (truthy hd) eqn:Hhd; [|done]. simpl.
    destruct hd as [| | | | |e]; try done. simpl.
    destruct (e !! "planets") as [pl|] eqn:He; [|done].
    by rewrite (Hall m e pl eq_refl Hm He).
Qed.

Lemma renderPlanets_null_iff_witness :
  renderPlanets (JObj {[ "house_1" := JObj {[ "planets" := JNum 0 ]} ]}) 0
  = Ok None
  ∧ renderPlanets (JObj {[ "house_1" := JStr "Sun" ]}) 0 = Ok None.
Proof.
  split; apply renderPlanets_null_iff; (split; [done|]);
    intros m e pl [= <-] Hm He; vm_compute in Hm; simplify_eq.
  vm_compute in He. by simplify_eq.
Defined.

Lemma renderPlanets_labels_iff_witness :
  renderPlanets crowded_data 6
  = Ok (Some (spans_from 50 0 crowded_names)).
Proof.
  apply (renderPlanets_labels_iff 6 (Point 50 80) eq_refl).
  exists (planet <$> crowded_names), crowded_names.
  split; [by eexists _, _|]. split; [apply planets_named|reflexivity].
Defined.

Lemma planet_list_string : ¬ planet_list (JStr "Sun").
Proof. by intros (ps & names & [=] & _). Qed.

Lemma planet_list_nameless : ¬ planet_list (JArr [planet "Sun"; JObj ∅]).
Proof.
  intros (ps & names & [= <-] & Hps).
  apply Forall2_cons_inv_l in Hps as (n1 & names1 & _ & Hps & _).
  apply Forall2_cons_inv_l in Hps as (n2 & names2 & (m & [= <-] & Hm) & _).
  by rewrite lookup_empty in Hm.
Qed.

Lemma renderPlanets_throws_iff_witness :
  renderPlanets bad_planets_data 0 = TypeError
  ∧ renderPlanets bad_planet_data 0 = TypeError.
Proof.
  split; apply (renderPlanets_throws_iff 0 (Point 50 20) eq_refl); right.
  - eexists _, _, _. split; [reflexivity|]. split; [reflexivity|].
    split; [reflexivity|]. split; [reflexivity|]. exact planet_list_string.
  - eexists _, _, _. split; [reflexivity|]. split; [reflexivity|].
    split; [reflexivity|]. split; [reflexivity|]. exact planet_list_nameless.
Defined.

(** ** When the chart fails *)

Lemma houseLayer_TypeError (data : json) (centers : list point) (i : nat) :
  houseLayer data i centers = TypeError ↔
  ∃ k, (k < length centers)%nat ∧ renderPlanets data (i + k) = TypeError.
Proof.
  revert i. induction centers as [|pos centers IH]; intros i.
  - simpl. split; [done|]. intros (k & Hk & _). lia.
  - cbn [houseLayer]. destruct (renderPlanets data i) as [ch|] eqn:Hi.
    + simpl. destruct (houseLayer data (S i) centers) as [texts|] eqn:Hl.
      * split; [done|]. intros ([|k] & Hk & Hr).
        -- rewrite Nat.add_0_r in Hr. congruence.
        -- assert (houseLayer data (S i) centers = TypeError); [|congruence].
           apply IH. exists k. split; [simpl in Hk; lia|].
           by rewrite Nat.add_succ_r in Hr.
      * split; [|done]. intros _. apply IH in Hl as (k & Hk & Hr).
        exists (S k). split; [simpl; lia|]. by rewrite Nat.add_succ_r.
    + split; [|done]. intros _. exists 0%nat.
      split; [simpl; lia|]. by rewrite Nat.add_0_r.
Qed.

(** X4.  The chart as a whole throws exactly when [renderPlanets] throws for
    one of the twelve houses: one house that cannot be laid out takes the
    whole chart down, and nothing else does, whatever the ascendant sign. *)
Theorem NorthIndianChart_throws_iff (data : json) (asc : string) :
  NorthIndianChart data asc = TypeError ↔
  ∃ h, (h < 12)%nat ∧ renderPlanets data h = TypeError.
Proof.
  unfold NorthIndianChart.
  rewrite <- (houseLayer_TypeError data HOUSE_CENTERS 0).
  by destruct (houseLayer data 0 HOUSE_CENTERS).
Qed.

Lemma NorthIndianChart_throws_iff_witness :
  NorthIndianChart bad_planet_data "Leo" = TypeError.
Proof.
  apply NorthIndianChart_throws_iff. exists 0%nat. split; [lia|reflexivity].
Defined.

(** ** More on sign numbers *)

(** X5.  Counting houses composes: the sign [k] houses on from the sign of
    house [h] is the sign of house [h + k]. *)
Theorem getSignNum_compose (a h k b : Z) :
  0 ≤ a + h - 1 → 0 ≤ k →
  getSignNum (VNumber a) h = Finite b →
  getSignNum (VNumber b) k = getSignNum (VNumber a) (h + k).
Proof.
  intros Hah Hk. rewrite getSignNum_mod by done. intros [= <-].
  pose proof (Z.mod_pos_bound (a + h - 1) 12).
  rewrite !getSignNum_mod by lia. f_equal. f_equal.
  replace ((a + h - 1) `mod` 12 + 1 + k - 1) with ((a + h - 1) `mod` 12 + k)
    by lia.
  rewrite Z.add_mod_idemp_l by lia. f_equal. lia.
Qed.

Lemma getSignNum_compose_witness :
  getSignNum (VNumber 3) 5 = getSignNum (VNumber 10) (5 + 5).
Proof.
  apply (getSignNum_compose 10 5 5 3); [lia|lia|reflexivity].
Defined.

(** X6.  For an ascendant ordinal [a] and a sign ordinal [s], both in 1..12,
    the sign [s] is in house [(s - a) mod 12] and in no other house of
    0..11: every sign occupies exactly one house. *)
Theorem getSignNum_house_of_sign (a s : Z) :
  1 ≤ a ≤ 12 → 1 ≤ s ≤ 12 →
  0 ≤ (s - a) `mod` 12 ≤ 11
  ∧ getSignNum (VNumber a) ((s - a) `mod` 12) = Finite s
  ∧ ∀ h, 0 ≤ h ≤ 11 → getSignNum (VNumber a) h = Finite s →
         h = (s - a) `mod` 12.
Proof.
  intros Ha Hs.
  pose proof (Z.mod_pos_bound (s - a) 12).
  split; [lia|]. split.
  - rewrite getSignNum_mod by lia. f_equal.
    replace (a + (s - a) `mod` 12 - 1) with ((s - a) `mod` 12 + (a - 1)) by lia.
    rewrite Z.add_mod_idemp_l by lia.
    replace (s - a + (a - 1)) with (s - 1) by lia.
    rewrite Z.mod_small; lia.
  - intros h Hh. rewrite getSignNum_mod by lia. intros [= Hs'].
    assert (s - a = (a + h - 1) `mod` 12 - (a - 1)) as -> by lia.
    clear Hs' H. Z.div_mod_to_equations. lia.
Qed.

Lemma getSignNum_house_of_sign_witness :
  getSignNum (VNumber 7) 6 = Finite 1.
Proof.
  apply (getSignNum_house_of_sign 7 1); lia.
Defined.

Lemma getSignNum_seq (a : Z) :
  1 ≤ a ≤ 12 →
  getSignNum (VNumber a) <$> seqZ 0 12
  = Finite <$> rotate (Z.to_nat (a - 1)) (seqZ 1 12).
Proof.
  intros Ha. assert (Hcase : a ∈ seqZ 1 12) by (apply elem_of_seqZ; lia).
  clear Ha. revert Hcase. generalize a. apply Forall_forall.
  by repeat constructor.
Qed.

Lemma SIGN_MAP_not_inherited (name : string) (a : Z) :
  SIGN_MAP !! name = Some a → name ∉ Object_prototype.
Proof.
  intros H. apply elem_of_list_to_map_2 in H.
  repeat (apply elem_of_cons in H as [[= -> _]|H]; [compute_done|]).
  by apply elem_of_nil in H.
Qed.

Lemma SIGN_MAP_inj (n1 n2 : string) (a : Z) :
  SIGN_MAP !! n1 = Some a → SIGN_MAP !! n2 = Some a → n1 = n2.
Proof.
  intros H1 H2. apply elem_of_list_to_map_2 in H1, H2.
  rewrite !elem_of_cons, elem_of_nil in H1, H2.
  destruct_or!; by simplify_eq.
Qed.

Lemma signs_of_chart (data : json) (name : string) (ch : chart) :
  NorthIndianChart data name = Ok ch →
  sign_num <$> signs ch = getSignNum (ascNum name) <$> seqZ 0 12.
Proof.
  intros [_ Hs]%NorthIndianChart_Ok. rewrite Hs.
  by rewrite <- list_fmap_compose.
Qed.

(** X7.  A name that is neither one of the twelve signs nor a property name
    of [Object.prototype] is treated exactly like ["Aries"]: for any payload
    the component gives the same result for both. *)
Theorem unknown_sign_is_Aries (data : json) (name : string) :
  SIGN_MAP !! name = None → name ∉ Object_prototype →
  NorthIndianChart data name = NorthIndianChart data "Aries".
Proof.
  intros Hnone Hown. unfold NorthIndianChart.
  by rewrite (ascNum_default name Hnone Hown).
Qed.

Lemma unknown_sign_is_Aries_witness :
  NorthIndianChart sample_data "aries" = NorthIndianChart sample_data "Aries"
  ∧ NorthIndianChart sample_data "" = NorthIndianChart sample_data "Aries".
Proof.
  split; apply unknown_sign_is_Aries; [reflexivity|compute_done..].
Defined.

(** X8.  The sign numbers of a rendered chart are of two kinds only.  For a
    name outside [Object.prototype] they are [1; ...; 12] rotated to start at
    the sign's ordinal, or at 1 when the name is no sign; for one of the
    property names of [Object.prototype] all twelve are [NaN]. *)
Theorem sign_numbers_cases (data : json) (name : string) (ch : chart) :
  NorthIndianChart data name = Ok ch →
  (name ∉ Object_prototype →
     ∃ a, 1 ≤ a ≤ 12
          ∧ (SIGN_MAP !! name = Some a ∨ SIGN_MAP !! name = None ∧ a = 1)
          ∧ sign_num <$> signs ch
            = Finite <$> rotate (Z.to_nat (a - 1)) (seqZ 1 12))
  ∧ (name ∈ Object_prototype → sign_num <$> signs ch = replicate 12 NaN).
Proof.
  intros Hch. rewrite (signs_of_chart data name ch Hch). split.
  - intros Hown. destruct (SIGN_MAP !! name) as [a|] eqn:Hname.
    + pose proof (SIGN_MAP_ordinal name a Hname) as Ha.
      exists a. split; [done|]. split; [by left|].
      rewrite (ascNum_recognized name a Hname). by apply getSignNum_seq.
    + exists 1. split; [lia|]. split; [by right|].
      rewrite (ascNum_default name Hname Hown). by apply getSignNum_seq.
  - intros Hin. destruct (SIGN_MAP !! name) as [a|] eqn:Hname.
    + by apply SIGN_MAP_not_inherited in Hname.
    + unfold ascNum, lookup_literal. rewrite Hname.
      by rewrite bool_decide_eq_true_2.
Qed.

Lemma sign_numbers_cases_witness :
  ∃ c1 c2,
    NorthIndianChart sample_data "Pisces" = Ok c1
    ∧ NorthIndianChart sample_data "valueOf" = Ok c2
    ∧ (∃ a, 1 ≤ a ≤ 12
            ∧ sign_num <$> signs c1
              = Finite <$> rotate (Z.to_nat (a - 1)) (seqZ 1 12))
    ∧ sign_num <$> signs c2 = replicate 12 NaN.
Proof.
  eexists _, _. split; [by vm_compute|]. split; [by vm_compute|]. split.
  - edestruct (sign_numbers_cases sample_data "Pisces")
      as [H _]; [by vm_compute|].
    destruct H as (a & Ha & _ & Hrot); [compute_done|].
    exists a. split; [exact Ha|exact Hrot].
  - edestruct (sign_numbers_cases sample_data "valueOf")
      as [_ H]; [by vm_compute|].
    apply H. compute_done.
Defined.

(** X9.  Two different signs never number a house alike: for distinct
    recognized names the sign numbers differ in each of the houses 0..11. *)
Theorem distinct_signs_distinct_numbers (n1 n2 : string) (a1 a2 h : Z) :
  SIGN_MAP !! n1 = Some a1 → SIGN_MAP !! n2 = Some a2 → n1 ≠ n2 →
  0 ≤ h ≤ 11 →
  getSignNum (ascNum n1) h ≠ getSignNum (ascNum n2) h.
Proof.
  intros H1 H2 Hne Hh.
  pose proof (SIGN_MAP_ordinal n1 a1 H1) as Ha1.
  pose proof (SIGN_MAP_ordinal n2 a2 H2) as Ha2.
  rewrite (ascNum_recognized n1 a1 H1), (ascNum_recognized n2 a2 H2).
  rewrite !getSignNum_mod by lia. intros [= Heq].
  assert (a1 = a2) as -> by (Z.div_mod_to_equations; lia).
  by apply Hne, (SIGN_MAP_inj n1 n2 a2).
Qed.

Lemma distinct_signs_distinct_numbers_witness :
  getSignNum (ascNum "Leo") 11 ≠ getSignNum (ascNum "Virgo") 11.
Proof.
  apply (distinct_signs_distinct_numbers "Leo" "Virgo" 5 6 11);
    [reflexivity|reflexivity|discriminate|lia].
Defined.

(** ** The chat handler *)

Lemma trim_start_blank (s : string) :
  trim_start s = EmptyString ↔ blank s = true.
Proof.
  induction s as [|c s IH]; simpl; [done|].
  destruct (is_white_space c); simpl; [done|]. split; discriminate.
Qed.

Lemma trim_end_solid (c : Ascii.ascii) (s : string) :
  is_white_space c = false → trim_end (String c s) ≠ EmptyString.
Proof. intros Hc. simpl. rewrite Hc. by destruct (trim_end s). Qed.

Lemma trim_blank (s : string) : trim s = EmptyString ↔ blank s = true.
Proof.
  unfold trim. rewrite <- trim_start_blank. split.
  - induction s as [|c s IH]; simpl; [done|].
    destruct (is_white_space c) eqn:Hc; [done|].
    intros H. by apply trim_end_solid in H.
  - by intros ->.
Qed.

Lemma trim_not_blank (s : string) :
  blank s = false → String.eqb (trim s) "" = false.
Proof.
  intros Hb. apply String.eqb_neq. intros Ht%trim_blank. congruence.
Qed.



Section chat.
Variable s : Home.
Hypothesis asked : blank (userQuestion s) = false.

Let question : message := Message "user" (Some (JStr (userQuestion s))).

(** X11.  With a question that is not blank, [handleChat] appends it to the
    transcript as typed (not trimmed), empties the box, turns the loading
    flag on and posts the chart data, the question and the transcript
    including the question, however many questions were asked before and
    whether or not an answer is still awaited.  When the response arrives
    the transcript becomes the one captured at the call plus one model
    message, the [response] field of the reply or the fixed error text, and
    the loading flag goes off; nothing else of the state of that moment is
    touched and no alert is raised. *)
Theorem handleChat_exchange :
  ∃ k,
    handleChat s
    = Reaction
        (setChatLoading true
           (setUserQuestion "" (setChatHistory (chatHistory s ++ [question]) s)))
        []
        (Some (Request "POST" (API_BASE +:+ "/chat_with_astrologer")
                 [("Content-Type", "application/json")]
                 (Some (ChatPayload (chartData s) (userQuestion s)
                          (chatHistory s ++ [question]))), k))
    ∧ ∀ res s',
        k res s'
        = (setChatLoading false
             (setChatHistory
                (chatHistory s ++ [question; Message "model" (reply_text res)])
                s'), []).
Proof using asked.
  unfold handleChat. rewrite (trim_not_blank _ asked).
  eexists. split; [reflexivity|]. intros res s'.
  rewrite (assoc_L (++) _ [question] [_] : _ ++ [question; _] = _).
  by destruct res as [|[] [[]|]].
Qed.

End chat.

Lemma handleChat_exchange_witness :
  ∃ k,
    pending (handleChat (changeQuestion "Career?" initial))
    = Some (Request "POST" "http://127.0.0.1:8000/chat_with_astrologer"
              [("Content-Type", "application/json")]
              (Some (ChatPayload JNull "Career?"
                       [Message "user" (Some (JStr "Career?"))])), k)
    ∧ chatHistory
        (k (Response true (Some (JObj {[ "response" := JStr "Yes." ]})))
           initial).1
      = [Message "user" (Some (JStr "Career?"));
         Message "model" (Some (JStr "Yes."))]
    ∧ chatHistory (k (Response false None) initial).1
      = [Message "user" (Some (JStr "Career?"));
         Message "model" (Some (JStr "Error connecting to the stars."))].
Proof.
  destruct (handleChat_exchange (changeQuestion "Career?" initial) eq_refl)
    as (k & Hk & Hres).
  exists k. rewrite Hk, !Hres. split; [reflexivity|]. split; reflexivity.
Defined.

Lemma handleChat_pending (s : Home) (req : request)
    (k : response → Home → Home * list string) :
  pending (handleChat s) = Some (req, k) →
  now (handleChat s)
  = setChatLoading true
      (setUserQuestion ""
         (setChatHistory
            (chatHistory s ++ [Message "user" (Some (JStr (userQuestion s)))])
            s))
  ∧ ∀ res s',
      k res s'
      = (setChatLoading false
           (setChatHistory
              (chatHistory s
               ++ [Message "user" (Some (JStr (userQuestion s)));
                   Message "model" (reply_text res)]) s'), []).
Proof.
  unfold handleChat.
  destruct (String.eqb (trim (userQuestion s)) ""); [done|].
  intros [= _ <-]. split; [done|]. intros res s'.
  rewrite (assoc_L (++) _ [_] [_] : _ ++ [_; _] = _).
  by destruct res as [|[] [[]|]].
Qed.

(** X12.  A second question sent with Enter while the first answer is still
    awaited is accepted, and then one of the answers is lost.  If the first
    answer arrives first, the transcript drops the second question until the
    second answer arrives and then holds both questions and the second
    answer only; if the second answer arrives first, the first answer then
    replaces the second question and its answer.  The loading flag goes off
    with whichever answer comes first. *)
Theorem handleChat_overlap (s : Home) (q2 : string) (req1 req2 : request)
    (k1 k2 : response → Home → Home * list string) (res1 res2 : response) :
  let u1 := Message "user" (Some (JStr (userQuestion s))) in
  let u2 := Message "user" (Some (JStr q2)) in
  let s2 := now (handleChat (changeQuestion q2 (now (handleChat s)))) in
  pending (handleChat s) = Some (req1, k1) →
  pending (handleChat (changeQuestion q2 (now (handleChat s))))
  = Some (req2, k2) →
  chatHistory s2 = chatHistory s ++ [u1; u2]
  ∧ chatHistory (k1 res1 s2).1
    = chatHistory s ++ [u1; Message "model" (reply_text res1)]
  ∧ chatLoading (k1 res1 s2).1 = false
  ∧ chatHistory (k2 res2 (k1 res1 s2).1).1
    = chatHistory s ++ [u1; u2; Message "model" (reply_text res2)]
  ∧ chatHistory (k1 res1 (k2 res2 s2).1).1
    = chatHistory s ++ [u1; Message "model" (reply_text res1)].
Proof.
  intros u1 u2 s2 H1 H2.
  apply handleChat_pending in H1 as [Hs1 Hk1].
  apply handleChat_pending in H2 as [Hs2 Hk2].
  subst s2. rewrite !Hk1, !Hk2, Hs2, Hs1. simpl.
  rewrite <- !(assoc_L (++)). done.
Qed.

Lemma handleChat_overlap_witness :
  ∃ k1 k2 req1 req2,
    let s1 := changeQuestion "Career?" initial in
    let s2 := now (handleChat (changeQuestion "Health?" (now (handleChat s1)))) in
    pending (handleChat s1) = Some (req1, k1)
    ∧ pending (handleChat (changeQuestion "Health?" (now (handleChat s1))))
      = Some (req2, k2)
    ∧ chatHistory
        (k2 (Response true (Some (JObj {[ "response" := JStr "B" ]})))
           (k1 (Response true (Some (JObj {[ "response" := JStr "A" ]}))) s2).1).1
      = [Message "user" (Some (JStr "Career?"));
         Message "user" (Some (JStr "Health?"));
         Message "model" (Some (JStr "B"))].
Proof.
  assert (∃ req k, pending (handleChat (changeQuestion "Career?" initial))
                   = Some (req, k)) as (req1 & k1 & H1)
    by (eexists _, _; reflexivity).
  assert (∃ req k,
            pending (handleChat
                       (changeQuestion "Health?"
                          (now (handleChat (changeQuestion "Career?" initial)))))
            = Some (req, k)) as (req2 & k2 & H2)
    by (eexists _, _; reflexivity).
  exists k1, k2, req1, req2. intros s1 s2.
  split; [exact H1|]. split; [exact H2|].
  destruct (handleChat_overlap s1 "Health?" req1 req2 k1 k2
              (Response true (Some (JObj {[ "response" := JStr "A" ]})))
              (Response true (Some (JObj {[ "response" := JStr "B" ]})))
              H1 H2) as (_ & _ & _ & H & _).
  exact H.
Defined.

(** ** The calculate handler *)

(** X13.  [handleCalculate] only alerts that a city must be selected, with
    no state change and no request, exactly when [selectedCity] is falsy;
    and it is falsy after every edit of the city box, so that typing a name,
    even the one just picked, always has to be followed by a pick from the
    list. *)
Theorem handleCalculate_needs_city (s : Home) (v : string) :
  (handleCalculate s = Reaction s [select_city_alert] None
   ↔ truthy (selectedCity s) = false)
  ∧ handleCalculate (changeCity v s)
    = Reaction (changeCity v s) [select_city_alert] None.
Proof.
  split; [|done]. unfold handleCalculate.
  destruct (truthy (selectedCity s)) eqn:Hc; simpl; [|done].
  split; [|done].
  destruct (selectedCity s); try done; simpl; intros [= _ ?]; done.
Qed.

(** X14.  Picking a city (any truthy element of the list) stores it, puts
    its [name] in the city box and closes the list; [handleCalculate] then
    turns the loading flag on and posts the date and time as typed with the
    [name], [lat] and [lon] of that city.  An [ok] response that parses
    stores the parsed value as chart data and switches to the dashboard;
    any other outcome raises the calculation alert and changes nothing but
    the loading flag, which goes off in both cases. *)
Theorem select_then_calculate (s : Home) (city : json)
    (name lat lon : option json) :
  truthy city = true →
  get city "name" = Ok name → get city "lat" = Ok lat →
  get city "lon" = Ok lon →
  let s1 := setCityResults (JArr []) (setCityInput name (setSelectedCity city s)) in
  selectCity city s = Ok s1
  ∧ ∃ k,
      handleCalculate s1
      = Reaction (setLoading true s1) []
          (Some (Request "POST" (API_BASE +:+ "/calculate_chart")
                   [("Content-Type", "application/json")]
                   (Some (CalcPayload (date s) (time s) name lat lon)), k))
      ∧ ∀ res s',
          k res s'
          = match res with
            | Response true (Some v) =>
                (setLoading false (setStep Dashboard (setChartData v s')), [])
            | _ => (setLoading false s', [calculate_alert])
            end.
Proof.
  intros Hc Hname Hlat Hlon s1. unfold selectCity. rewrite Hname.
  split; [done|]. unfold handleCalculate. subst s1. cbn [selectedCity
    setCityResults setCityInput setSelectedCity date time].
  rewrite Hc, Hname, Hlat, Hlon. simpl.
  eexists. split; [reflexivity|]. by intros [|[] []] s'.
Qed.

Lemma select_then_calculate_witness :
  ∃ k,
    pending (handleCalculate
               (setCityResults (JArr [])
                  (setCityInput (Some (JStr "Pune"))
                     (setSelectedCity pune initial))))
    = Some (Request "POST" "http://127.0.0.1:8000/calculate_chart"
              [("Content-Type", "application/json")]
              (Some (CalcPayload "14/12/2023" "10:30" (Some (JStr "Pune"))
                       (Some (JNum 18.5)) (Some (JNum 73.75)))), k)
    ∧ step (k (Response true (Some sample_data)) initial).1 = Dashboard
    ∧ step (k (Response false None) initial).1 = Form.
Proof.
  destruct (select_then_calculate initial pune (Some (JStr "Pune"))
              (Some (JNum 18.5)) (Some (JNum 73.75)) eq_refl eq_refl eq_refl
              eq_refl) as (_ & k & Hk & Hres).
  exists k. rewrite Hk, !Hres. split; [reflexivity|]. split; reflexivity.
Defined.

Lemma handleCalculate_pending (s : Home) (req : request)
    (k : response → Home → Home * list string) :
  pending (handleCalculate s) = Some (req, k) →
  ∀ res s',
    k res s'
    = match res with
      | Response true (Some v) =>
          (setLoading false (setStep Dashboard (setChartData v s')), [])
      | _ => (setLoading false s', [calculate_alert])
      end.
Proof.
  unfold handleCalculate.
  destruct (negb (truthy (selectedCity s))); [done|].
  destruct (_ ≫= _) as [data|]; [|done].
  intros [= _ <-]. by intros [|[] []] s'.
Qed.



(** ** What no handler undoes *)

Lemma update_step (s s' : Home) :
  update s s' →
  (step s = Dashboard → step s' = Dashboard)
  ∧ ((step s = Form → chartData s = JNull) →
     step s' = Form → chartData s' = JNull).
Proof.
  intros Hu. destruct Hu as [s v|s v|s v|s v|s v|s city s' Hsel|s|s
                             |s0 req k res s Hk|s0 req k res s Hk].
  - done.
  - done.
  - done.
  - done.
  - done.
  - unfold selectCity in Hsel. inv_bind Hsel. by injection Hsel as <-.
  - unfold handleCalculate.
    destruct (negb (truthy (selectedCity s))); [done|].
    by destruct (_ ≫= _).
  - unfold handleChat.
    by destruct (String.eqb (trim (userQuestion s)) "").
  - rewrite (handleCalculate_pending s0 req k Hk).
    by destruct res as [|[] [v|]].
  - destruct (handleChat_pending s0 req k Hk) as [_ ->]. done.
Qed.

(** X16.  Along any sequence of state changes the page can make, once [step]
    is ["dashboard"] it stays so, since nothing sets it back to ["form"];
    and if the chart data is [null] while the form shows, as at the start,
    it stays [null] for as long as the form shows. *)
Theorem dashboard_is_final (s s' : Home) :
  rtc update s s' →
  (step s = Dashboard → step s' = Dashboard)
  ∧ ((step s = Form → chartData s = JNull) →
     step s' = Form → chartData s' = JNull).
Proof.
  induction 1 as [s|s s1 s' Hu _ [IH1 IH2]]; [done|].
  apply update_step in Hu as [H1 H2]. split; auto.
Qed.

Lemma dashboard_is_final_witness :
  ∃ req k,
    pending (handleCalculate (setSelectedCity pune initial)) = Some (req, k)
    ∧ step (changeCity "Goa"
              (k (Response true (Some sample_data)) initial).1) = Dashboard.
Proof.
  assert (∃ req k, pending (handleCalculate (setSelectedCity pune initial))
                   = Some (req, k)) as (req & k & Hk)
    by (eexists _, _; reflexivity).
  exists req, k. split; [exact Hk|].
  apply (dashboard_is_final (k (Response true (Some sample_data)) initial).1).
  - apply rtc_once, update_changeCity.
  - by rewrite (handleCalculate_pending _ req k Hk).
Defined.

(** ** The API helpers *)

(** X17.  [searchCity] sends nothing for a query of fewer than three
    characters and resolves to the empty list; otherwise it sends one [GET]
    with the query appended as typed.  It resolves to something other than
    the empty list only with what an [ok] response parsed to, turns a
    response that is not [ok] into the empty list, and rejects exactly on a
    network failure or an [ok] response that does not parse. *)
Theorem searchCity_cases (query : string) (res : response) :
  (request_of (searchCity query)
   = if (String.length query <? 3)%nat then None
     else Some (Request "GET" (API_BASE +:+ "/search_city?query=" +:+ query)
                  [] None))
  ∧ (∀ v, settle (searchCity query) res = Resolved v →
          v = JArr []
          ∨ (3 ≤ String.length query)%nat ∧ res = Response true (Some v))
  ∧ (settle (searchCity query) res = Rejected ↔
     (3 ≤ String.length query)%nat
     ∧ (res = NetworkError ∨ res = Response true None)).
Proof.
  unfold searchCity.
  destruct (Nat.ltb_spec (String.length query) 3) as [Hlt|Hge]; simpl.
  - split; [done|]. split; [intros v [= <-]; by left|].
    split; [done|]. intros [? _]. lia.
  - split; [done|]. destruct res as [|[] [v|]]; simpl.
    + split; [done|]. split; [auto|done].
    + split; [intros v' [= <-]; by right|]. split; [done|].
      by intros [_ [|]].
    + split; [done|]. split; [auto|done].
    + split; [intros v' [= <-]; by left|]. split; [done|].
      by intros [_ [|]].
    + split; [intros v' [= <-]; by left|]. split; [done|].
      by intros [_ [|]].
Qed.

(** X18.  [calculateChart] and [chatWithAstrologer] always send one [POST]
    of the data to their path, and reject exactly when the network fails,
    the response is not [ok], or its body does not parse; otherwise they
    resolve to what the body parsed to. *)
Theorem post_cases (data : payload) (res : response) :
  request_of (calculateChart data)
  = Some (Request "POST" (API_BASE +:+ "/calculate_chart")
            [("Content-Type", "application/json")] (Some data))
  ∧ request_of (chatWithAstrologer data)
    = Some (Request "POST" (API_BASE +:+ "/chat_with_astrologer")
              [("Content-Type", "application/json")] (Some data))
  ∧ settle (calculateChart data) res = settle (chatWithAstrologer data) res
  ∧ (settle (calculateChart data) res = Rejected ↔
     res = NetworkError ∨ (∃ parsed, res = Response false parsed)
     ∨ res = Response true None)
  ∧ (∀ v, settle (calculateChart data) res = Resolved v ↔
          res = Response true (Some v)).
Proof.
  split; [done|]. split; [done|]. split; [done|].
  destruct res as [|[] [v|]]; simpl; split;
    try (intros v'); (split; [intros H|intros H]);
    try done; try (by injection H as <-); eauto;
    by (destruct H as [H|[[parsed H]|H]]).
Qed.
